(** * Credit card payment simulator: staggered versus lump-sum payments

    Shallow embedding of [credit_card_sim_app.py]: the two simulation
    functions [simulate_payments_staggered] and [simulate_payments_lump_sum]
    and the reduction of their balance series to an average daily balance and
    an approximate annual interest.

    Numbers.  Python's numbers (the [int]s the sliders hand over, the [float]
    rate and the [float] that [np.mean] returns) are embedded as exact
    rationals [Q]; rounding is not modelled.  The one non-number that the code
    can produce, the NaN that [np.mean] returns for an empty list, is [None]
    in an [option Q].  [months], [days_per_month] and the days are [Z].

    Text.  The text field of [main] is embedded as a list of characters with
    code points up to U+00FF ([ascii] read as Latin-1), with Python's tables
    of whitespace and digits for that range. *)

From Stdlib Require Import ZArith QArith Lia Lqa Ascii.
From Stdlib Require DecimalNat.
From stdpp Require Import base list gmap.

Local Open Scope Q_scope.

(** ** Python primitives used by the simulators *)

(** [range(start, stop)]: empty when [stop <= start]. *)
Definition py_range (start stop : Z) : list Z := seqZ start (stop - start).

(** [x in t] for a tuple of integers: a linear scan with [==]. *)
Fixpoint py_in (x : Z) (t : list Z) : bool :=
  match t with
  | [] => false
  | y :: t' => if Z.eqb x y then true else py_in x t'
  end.

(** [x < y] on numbers. *)
Definition Qlt_bool (x y : Q) : bool := negb (Qle_bool y x).

(** [np.mean]: the entries are added up and the total is divided by their
    count; for an empty list the result is NaN (a warning, no exception). *)
Definition np_mean (l : list Q) : option Q :=
  match l with
  | [] => None
  | _ => Some (foldl Qplus 0 l / inject_Z (Z.of_nat (length l)))
  end.

(** [avg * rate], NaN propagating. *)
Definition mul_rate (avg : option Q) (rate : Q) : option Q :=
  match avg with
  | Some m => Some (m * rate)
  | None => None
  end.

(** ** The simulators *)

(** The two statements guarded by [if day in payment_days:] and by
    [if day == payment_day:]

      current_balance -= payment_amount
      if current_balance < 0:
          current_balance = 0                                               *)
Definition debit (payment_amount current_balance : Q) : Q :=
  let current_balance := current_balance - payment_amount in
  if Qlt_bool current_balance 0 then 0 else current_balance.

(** The loop state: [current_balance] and the list [daily_balances] built so
    far. *)
Definition loop_state : Type := Q * list Q.

(** The returned tuple
    [(daily_balances, annual_interest_earned, avg_daily_balance)]. *)
Definition result : Type := list Q * option Q * option Q.

Definition series_of (r : result) : list Q := r.1.1.
Definition interest_of (r : result) : option Q := r.1.2.
Definition average_of (r : result) : option Q := r.2.

Module Staggered.

(** Body of the inner loop for one [day]. *)
Definition day_body (payment_days : list Z) (payment_amount : Q)
    (st : loop_state) (day : Z) : loop_state :=
  let '(current_balance, daily_balances) := st in
  let current_balance :=
    if py_in day payment_days then debit payment_amount current_balance
    else current_balance in
  (current_balance, daily_balances ++ [current_balance]).

(** Body of the outer loop: [for day in range(1, days_per_month + 1)]. *)
Definition month_body (days_per_month : Z) (payment_days : list Z)
    (payment_amount : Q) (st : loop_state) (month : Z) : loop_state :=
  foldl (day_body payment_days payment_amount) st
        (py_range 1 (days_per_month + 1)).

End Staggered.

Definition simulate_payments_staggered
    (initial_balance annual_interest_rate : Q) (months days_per_month : Z)
    (payment_days : list Z) (payment_amount : Q) : result :=
  let daily_balances := [] in
  let current_balance := initial_balance in
  let '(current_balance, daily_balances) :=
    foldl (Staggered.month_body days_per_month payment_days payment_amount)
          (current_balance, daily_balances) (py_range 0 months) in
  let avg_daily_balance := np_mean daily_balances in
  let annual_interest_earned := mul_rate avg_daily_balance annual_interest_rate in
  (daily_balances, annual_interest_earned, avg_daily_balance).

Module LumpSum.

Definition day_body (payment_day : Z) (payment_amount : Q)
    (st : loop_state) (day : Z) : loop_state :=
  let '(current_balance, daily_balances) := st in
  let current_balance :=
    if Z.eqb day payment_day then debit payment_amount current_balance
    else current_balance in
  (current_balance, daily_balances ++ [current_balance]).

Definition month_body (days_per_month : Z) (payment_day : Z)
    (payment_amount : Q) (st : loop_state) (month : Z) : loop_state :=
  foldl (day_body payment_day payment_amount) st
        (py_range 1 (days_per_month + 1)).

End LumpSum.

Definition simulate_payments_lump_sum
    (initial_balance annual_interest_rate : Q) (months days_per_month : Z)
    (payment_day : Z) (payment_amount : Q) : result :=
  let daily_balances := [] in
  let current_balance := initial_balance in
  let '(current_balance, daily_balances) :=
    foldl (LumpSum.month_body days_per_month payment_day payment_amount)
          (current_balance, daily_balances) (py_range 0 months) in
  let avg_daily_balance := np_mean daily_balances in
  let annual_interest_earned := mul_rate avg_daily_balance annual_interest_rate in
  (daily_balances, annual_interest_earned, avg_daily_balance).

(** The calls of [main] with the default values of the widgets, which are
    also the default arguments of the two functions. *)
Definition scenario_staggered : result :=
  simulate_payments_staggered 30000 (4#100) 12 30 [7; 14; 21; 28]%Z 1000.

Definition scenario_lump_sum : result :=
  simulate_payments_lump_sum 30000 (4#100) 12 30 28 4000.

(** ** The simulators on a heap

    [daily_balances = []] allocates a list object, [append] updates it in
    place and the caller receives a reference to it.  Here the same code runs
    against a heap of list objects, so that what a call returns can be
    compared across calls made in different heaps. *)

Abbreviation loc := nat (only parsing).
Abbreviation heap := (gmap loc (list Q)) (only parsing).

(** [[]]: a new empty list at an unused address. *)
Definition new_list (h : heap) : loc * heap :=
  let l := fresh (dom h) in (l, <[l := []]> h).

(** [l.append(x)].  The reference the simulators append to is the one they
    have just allocated, so the second branch is never taken by them. *)
Definition list_append (l : loc) (x : Q) (h : heap) : heap :=
  match h !! l with
  | Some xs => <[l := xs ++ [x]]> h
  | None => h
  end.

(** A returned triple, its first component a reference, together with the
    heap it refers into. *)
Definition call_result : Type := (loc * option Q * option Q) * heap.

Definition call_object (r : call_result) : loc := r.1.1.1.
Definition call_heap (r : call_result) : heap := r.2.
Definition call_series (r : call_result) : option (list Q) :=
  call_heap r !! call_object r.
Definition call_interest (r : call_result) : option Q := r.1.1.2.
Definition call_average (r : call_result) : option Q := r.1.2.

Module StaggeredCall.

Definition day_body (daily_balances : loc) (payment_days : list Z)
    (payment_amount : Q) (st : Q * heap) (day : Z) : Q * heap :=
  let '(current_balance, h) := st in
  let current_balance :=
    if py_in day payment_days then debit payment_amount current_balance
    else current_balance in
  (current_balance, list_append daily_balances current_balance h).

Definition month_body (daily_balances : loc) (days_per_month : Z)
    (payment_days : list Z) (payment_amount : Q)
    (st : Q * heap) (month : Z) : Q * heap :=
  foldl (day_body daily_balances payment_days payment_amount) st
        (py_range 1 (days_per_month + 1)).

End StaggeredCall.

Definition simulate_payments_staggered_call
    (initial_balance annual_interest_rate : Q) (months days_per_month : Z)
    (payment_days : list Z) (payment_amount : Q) (h : heap) : call_result :=
  let '(daily_balances, h) := new_list h in
  let current_balance := initial_balance in
  let '(current_balance, h) :=
    foldl (StaggeredCall.month_body daily_balances days_per_month
             payment_days payment_amount)
          (current_balance, h) (py_range 0 months) in
  let avg_daily_balance := np_mean (default [] (h !! daily_balances)) in
  let annual_interest_earned := mul_rate avg_daily_balance annual_interest_rate in
  ((daily_balances, annual_interest_earned, avg_daily_balance), h).

Module LumpSumCall.

Definition day_body (daily_balances : loc) (payment_day : Z)
    (payment_amount : Q) (st : Q * heap) (day : Z) : Q * heap :=
  let '(current_balance, h) := st in
  let current_balance :=
    if Z.eqb day payment_day then debit payment_amount current_balance
    else current_balance in
  (current_balance, list_append daily_balances current_balance h).

Definition month_body (daily_balances : loc) (days_per_month : Z)
    (payment_day : Z) (payment_amount : Q)
    (st : Q * heap) (month : Z) : Q * heap :=
  foldl (day_body daily_balances payment_day payment_amount) st
        (py_range 1 (days_per_month + 1)).

End LumpSumCall.

Definition simulate_payments_lump_sum_call
    (initial_balance annual_interest_rate : Q) (months days_per_month : Z)
    (payment_day : Z) (payment_amount : Q) (h : heap) : call_result :=
  let '(daily_balances, h) := new_list h in
  let current_balance := initial_balance in
  let '(current_balance, h) :=
    foldl (LumpSumCall.month_body daily_balances days_per_month
             payment_day payment_amount)
          (current_balance, h) (py_range 0 months) in
  let avg_daily_balance := np_mean (default [] (h !! daily_balances)) in
  let annual_interest_earned := mul_rate avg_daily_balance annual_interest_rate in
  ((daily_balances, annual_interest_earned, avg_daily_balance), h).

(** ** Vocabulary of the statements *)

(** The days the nested loops visit, in order: [range(1, days_per_month + 1)]
    once per element of [range(months)]. *)
Definition calendar (months days_per_month : Z) : list Z :=
  py_range 0 months ≫= (λ _, py_range 1 (days_per_month + 1)).

(** Day of the month visited at position [i] of the series. *)
Definition day_of_index (days_per_month : Z) (i : nat) : Z :=
  (Z.of_nat i mod days_per_month + 1)%Z.

(** Balance in the account just before the day at position [i]. *)
Definition balance_before (initial_balance : Q) (series : list Q) (i : nat) : Q :=
  match i with
  | O => initial_balance
  | S k => default 0 (series !! k)
  end.

(** Sum of all entries of a series. *)
Fixpoint sum_entries (l : list Q) : Q :=
  match l with
  | [] => 0
  | x :: l' => x + sum_entries l'
  end.

(** Sum of all entries divided by the number of entries. *)
Definition arithmetic_mean (l : list Q) : Q :=
  sum_entries l / inject_Z (Z.of_nat (length l)).

(** The two statistics of a result are the mean of its series and that mean
    times the rate. *)
Definition summarises (rate : Q) (r : result) : Prop :=
  ∃ m, average_of r = Some m
       ∧ m == arithmetic_mean (series_of r)
       ∧ interest_of r = Some (m * rate).

(** Strict order on results of [np.mean]; a NaN compares false. *)
Definition mean_lt (x y : option Q) : Prop :=
  match x, y with
  | Some a, Some b => a < b
  | _, _ => False
  end.

(** The guarded debit of each simulator as a function of the balance and the
    day. *)
Definition staggered_step (payment_days : list Z) (payment_amount : Q)
    (b : Q) (day : Z) : Q :=
  if py_in day payment_days then debit payment_amount b else b.

Definition lump_sum_step (payment_day : Z) (payment_amount : Q)
    (b : Q) (day : Z) : Q :=
  if Z.eqb day payment_day then debit payment_amount b else b.

(** The loop skeleton the two simulators share: they run the same nested
    loops and differ only in the test that guards the debit.  [step] is the
    effect of one day's statements on [current_balance]. *)
Section Skeleton.

Variable step : Q → Z → Q.

Definition day_step (st : loop_state) (day : Z) : loop_state :=
  let current_balance := step st.1 day in
  (current_balance, st.2 ++ [current_balance]).

(** The balances appended while the loop visits [days]. *)
Fixpoint trace (b : Q) (days : list Z) : list Q :=
  match days with
  | [] => []
  | d :: days' => step b d :: trace (step b d) days'
  end.

Definition simulate_with (initial_balance annual_interest_rate : Q)
    (months days_per_month : Z) : result :=
  let daily_balances := trace initial_balance (calendar months days_per_month) in
  (daily_balances,
   mul_rate (np_mean daily_balances) annual_interest_rate,
   np_mean daily_balances).

(** The same day on the heap, appending to the object [daily_balances]. *)
Definition heap_day (daily_balances : loc) (st : Q * heap) (day : Z) : Q * heap :=
  let current_balance := step st.1 day in
  (current_balance, list_append daily_balances current_balance st.2).

End Skeleton.

(** What a call that computes [r] returns when made on heap [h]. *)
Definition returned (r : result) (h : heap) : call_result :=
  let l := fresh (dom h) in
  ((l, interest_of r, average_of r), <[l := series_of r]> h).

(** ** Vocabulary of the further properties *)

(** The cutoff of the debit: a negative balance becomes [0]. *)
Definition clamp (x : Q) : Q := if Qlt_bool x 0 then 0 else x.


(** Number of days of [days] on which a payment is due. *)
Fixpoint payments (trigger : Z → bool) (days : list Z) : nat :=
  match days with
  | [] => 0
  | d :: days' => (if trigger d then 1 else 0) + payments trigger days'
  end.

(** Number of payments due up to and including position [i] of the run. *)
Definition payments_through (trigger : Z → bool) (months days_per_month : Z)
    (i : nat) : nat :=
  payments trigger (take (S i) (calendar months days_per_month)).

(** A natural number as a rational. *)
Definition Qnat (n : nat) : Q := inject_Z (Z.of_nat n).



(** The day's statements of either simulator, by the test that guards the
    debit. *)
Definition guarded_step (trigger : Z → bool) (payment_amount : Q)
    (b : Q) (day : Z) : Q :=
  if trigger day then debit payment_amount b else b.

(** The tests of the two simulators. *)
Definition staggered_due (payment_days : list Z) (day : Z) : bool :=
  py_in day payment_days.

Definition lump_sum_due (payment_day : Z) (day : Z) : bool :=
  Z.eqb day payment_day.

(** ** The text field of [main]

    [payment_days = tuple(int(x.strip()) for x in payment_days_str.split(",")
                          if x.strip().isdigit())] *)

(** [c.isspace()]: U+0009..U+000D, U+001C..U+0020, U+0085 and U+00A0. *)
Definition py_isspace (c : ascii) : bool :=
  let n := nat_of_ascii c in
  ((9 <=? n) && (n <=? 13) || (28 <=? n) && (n <=? 32)
   || (n =? 133) || (n =? 160))%nat.

(** The decimal digits [0] .. [9], the characters [int] converts. *)
Definition py_isdecimal_char (c : ascii) : bool :=
  let n := nat_of_ascii c in ((48 <=? n) && (n <=? 57))%nat.

(** The superscript digits U+00B2, U+00B3 and U+00B9: digits for [isdigit],
    not for [int]. *)
Definition py_issuperscript (c : ascii) : bool :=
  let n := nat_of_ascii c in ((n =? 178) || (n =? 179) || (n =? 185))%nat.

(** The characters [isdigit] accepts. *)
Definition py_isdigit_char (c : ascii) : bool :=
  py_isdecimal_char c || py_issuperscript c.

(** [s.lstrip()], [s.rstrip()] and [s.strip()]. *)
Fixpoint py_lstrip (s : list ascii) : list ascii :=
  match s with
  | [] => []
  | c :: s' => if py_isspace c then py_lstrip s' else s
  end.

Definition py_rstrip (s : list ascii) : list ascii := rev (py_lstrip (rev s)).

Definition py_strip (s : list ascii) : list ascii := py_rstrip (py_lstrip s).

(** [s.isdigit()]: at least one character, all of them digits. *)
Definition py_isdigit (s : list ascii) : bool :=
  match s with
  | [] => false
  | _ => forallb py_isdigit_char s
  end.

(** [s.split(sep)] for a separator of one character: always at least one
    field. *)
Fixpoint py_split (sep : ascii) (s : list ascii) : list (list ascii) :=
  match s with
  | [] => [[]]
  | c :: s' =>
      if Ascii.eqb c sep then [] :: py_split sep s'
      else match py_split sep s' with
           | field :: fields => (c :: field) :: fields
           | [] => [[c]]
           end
  end.

Definition digit_value (c : ascii) : Z := Z.of_nat (nat_of_ascii c - 48).

(** [int(s)] for a string that passed [isdigit]: the decimal value, or
    [None] for the [ValueError] raised when a character is not a decimal
    digit. *)
Definition py_int (s : list ascii) : option Z :=
  match s with
  | [] => None
  | _ => if forallb py_isdecimal_char s
         then Some (foldl (λ acc c, 10 * acc + digit_value c)%Z 0%Z s)
         else None
  end.

(** The generator expression of [main]; [None] when [int] raises. *)
Definition parse_payment_days (payment_days_str : list ascii) : option (list Z) :=
  mapM (λ x, py_int (py_strip x))
       (List.filter (λ x, py_isdigit (py_strip x))
                    (py_split "," payment_days_str)).

(** No field of a text this short exceeds the interpreter's default limit on
    the number of digits that [int] converts. *)
Definition short_text (s : list ascii) : Prop := (length s <= 4300)%nat.

(** ** Writing days down: [", ".join(str(d) for d in days)] *)

Fixpoint uint_chars (u : Decimal.uint) : list ascii :=
  match u with
  | Decimal.Nil => []
  | Decimal.D0 u => "0"%char :: uint_chars u
  | Decimal.D1 u => "1"%char :: uint_chars u
  | Decimal.D2 u => "2"%char :: uint_chars u
  | Decimal.D3 u => "3"%char :: uint_chars u
  | Decimal.D4 u => "4"%char :: uint_chars u
  | Decimal.D5 u => "5"%char :: uint_chars u
  | Decimal.D6 u => "6"%char :: uint_chars u
  | Decimal.D7 u => "7"%char :: uint_chars u
  | Decimal.D8 u => "8"%char :: uint_chars u
  | Decimal.D9 u => "9"%char :: uint_chars u
  end.

(** [str(n)] for a natural number. *)
Definition render_day (n : nat) : list ascii := uint_chars (Nat.to_uint n).

Fixpoint render_days (days : list nat) : list ascii :=
  match days with
  | [] => []
  | [d] => render_day d
  | d :: days' => render_day d ++ ","%char :: " "%char :: render_days days'
  end.

(** The default text of the field. *)
Definition default_payment_days_str : list ascii :=
  ["7"; ","; " "; "1"; "4"; ","; " "; "2"; "1"; ","; " "; "2"; "8"]%char.

(** ** [main]

    The widgets are the inputs and what is handed to the metrics, the text
    and the chart is the output; the formatting of the numbers is left
    out. *)

(** The values returned by the sidebar widgets, in the order of the code. *)
Record widgets : Type := {
  w_initial_balance : Z;          (* number_input, 1000 .. 1000000 *)
  w_interest_percent : Q;         (* slider, 0.0 .. 10.0 *)
  w_months : Z;                   (* slider, 1 .. 24 *)
  w_days_per_month : Z;           (* slider, 28 .. 31 *)
  w_payment_days_str : list ascii;
  w_payment_amount_staggered : Z; (* number_input, 100 .. 20000 *)
  w_lump_sum_day : Z;             (* slider, 1 .. 31 *)
  w_lump_sum_amount : Z           (* number_input, 100 .. 50000 *)
}.


(** [pd.DataFrame] of three columns given as lists: the rows, or [None] for
    the [ValueError] raised when the lists differ in length. *)
Definition pd_DataFrame (day : list Z) (staggered lump_sum : list Q)
    : option (list (Z * Q * Q)) :=
  if decide (length day = length staggered ∧ length day = length lump_sum)
  then Some (zip (zip day staggered) lump_sum)
  else None.

(** [x - y] on results of [np.mean], NaN propagating. *)
Definition sub_nan (x y : option Q) : option Q :=
  match x, y with
  | Some a, Some b => Some (a - b)
  | _, _ => None
  end.

(** What [main] displays. *)
Record report : Type := {
  r_avg_balance_staggered : option Q;
  r_annual_interest_staggered : option Q;
  r_avg_balance_lump_sum : option Q;
  r_annual_interest_lump_sum : option Q;
  r_difference : option Q;
  r_df_results : list (Z * Q * Q)
}.

(** [main]; [None] when it raises. *)
Definition main (w : widgets) : option report :=
  let initial_balance := inject_Z (w_initial_balance w) in
  let annual_interest_rate := w_interest_percent w / 100 in
  let months := w_months w in
  let days_per_month := w_days_per_month w in
  payment_days ← parse_payment_days (w_payment_days_str w);
  let payment_amount_staggered := inject_Z (w_payment_amount_staggered w) in
  let lump_sum_day := w_lump_sum_day w in
  let lump_sum_amount := inject_Z (w_lump_sum_amount w) in
  let '(daily_balances_staggered, annual_interest_staggered,
        avg_balance_staggered) :=
    simulate_payments_staggered initial_balance annual_interest_rate months
      days_per_month payment_days payment_amount_staggered in
  let '(daily_balances_lump_sum, annual_interest_lump_sum,
        avg_balance_lump_sum) :=
    simulate_payments_lump_sum initial_balance annual_interest_rate months
      days_per_month lump_sum_day lump_sum_amount in
  let days := py_range 1 (Z.of_nat (length daily_balances_staggered) + 1) in
  df_results ← pd_DataFrame days daily_balances_staggered
                            daily_balances_lump_sum;
  let difference := sub_nan annual_interest_lump_sum annual_interest_staggered in
  Some {| r_avg_balance_staggered := avg_balance_staggered;
          r_annual_interest_staggered := annual_interest_staggered;
          r_avg_balance_lump_sum := avg_balance_lump_sum;
          r_annual_interest_lump_sum := annual_interest_lump_sum;
          r_difference := difference;
          r_df_results := df_results |}.

(** The widgets at their default values. *)
Definition default_widgets : widgets :=
  {| w_initial_balance := 30000;
     w_interest_percent := 4;
     w_months := 12;
     w_days_per_month := 30;
     w_payment_days_str := default_payment_days_str;
     w_payment_amount_staggered := 1000;
     w_lump_sum_day := 28;
     w_lump_sum_amount := 4000 |}.

(** ** Folds *)

Lemma foldl_pointwise {A B} (f g : A → B → A) (l : list B) (a : A) :
  (∀ a b, f a b = g a b) → foldl f a l = foldl g a l.
Proof.
  intros Hfg. revert a. induction l as [|x l IH]; intros a; simpl; [done|].
  by rewrite Hfg, IH.
Qed.

(** A loop whose body ignores its variable and runs an inner loop over [ds]
    is one loop over the repeated [ds]. *)
Lemma foldl_months {A} (f : A → Z → A) (ds ms : list Z) (a : A) :
  foldl (λ st _, foldl f st ds) a ms = foldl f a (ms ≫= (λ _, ds)).
Proof.
  revert a. induction ms as [|m ms IH]; intros a; simpl; [done|].
  by rewrite foldl_app, IH.
Qed.

(** ** The calendar *)

Lemma length_py_range (start stop : Z) :
  length (py_range start stop) = Z.to_nat (stop - start).
Proof. apply length_seqZ. Qed.

Lemma length_bind_const {A} (ds : list A) (ms : list Z) :
  length (ms ≫= (λ _, ds)) = (length ms * length ds)%nat.
Proof.
  induction ms as [|m ms IH]; [done|].
  rewrite bind_cons, length_app, IH. simpl. done.
Qed.

Lemma length_calendar (months dpm : Z) :
  length (calendar months dpm) = (Z.to_nat months * Z.to_nat dpm)%nat.
Proof.
  unfold calendar. rewrite length_bind_const, !length_py_range.
  f_equal; f_equal; lia.
Qed.

Lemma elem_of_calendar (months dpm day : Z) :
  day ∈ calendar months dpm → (1 <= day <= dpm)%Z.
Proof.
  unfold calendar. rewrite list_elem_of_bind. intros (m & Hd & _).
  unfold py_range in Hd. apply elem_of_seqZ in Hd. lia.
Qed.

Lemma lookup_bind_const {A} (ds : list A) (ms : list Z) (i : nat) :
  (i < length ms * length ds)%nat →
  (ms ≫= (λ _, ds)) !! i = ds !! (i mod length ds)%nat.
Proof.
  revert i. induction ms as [|m ms IH]; intros i Hi; simpl in Hi; [lia|].
  rewrite bind_cons.
  destruct (decide (i < length ds)%nat) as [Hlt|Hge].
  - rewrite lookup_app_l by done. by rewrite Nat.mod_small.
  - rewrite lookup_app_r by lia. rewrite IH by lia.
    f_equal.
    replace i with ((i - length ds) + 1 * length ds)%nat at 2 by lia.
    rewrite Nat.Div0.mod_add. done.
Qed.

Lemma lookup_calendar (months dpm : Z) (i : nat) :
  (i < length (calendar months dpm))%nat →
  calendar months dpm !! i = Some (day_of_index dpm i).
Proof.
  intros Hi. pose proof Hi as Hi'. rewrite length_calendar in Hi'.
  unfold calendar. rewrite lookup_bind_const.
  2:{ rewrite !length_py_range.
      replace (Z.to_nat (months - 0)) with (Z.to_nat months) by (f_equal; lia).
      replace (Z.to_nat (dpm + 1 - 1)) with (Z.to_nat dpm) by (f_equal; lia).
      done. }
  rewrite length_py_range.
  replace (Z.to_nat (dpm + 1 - 1)) with (Z.to_nat dpm) by (f_equal; lia).
  assert (0 < dpm)%Z as Hd by lia.
  assert (Z.to_nat dpm ≠ 0%nat) as Hn by lia.
  pose proof (Nat.mod_upper_bound i (Z.to_nat dpm) Hn) as Hub.
  unfold py_range, day_of_index.
  rewrite lookup_seqZ_lt by lia. f_equal.
  rewrite Nat2Z.inj_mod, Z2Nat.id by lia. lia.
Qed.

(** ** The debit *)

Lemma Qlt_bool_iff (x y : Q) : Qlt_bool x y = true ↔ x < y.
Proof.
  unfold Qlt_bool. rewrite negb_true_iff. split.
  - intros H. apply Qnot_le_lt. intros Hle.
    apply Qle_bool_iff in Hle. congruence.
  - intros H. destruct (Qle_bool y x) eqn:E; [|done].
    apply Qle_bool_iff in E. exfalso. by apply (Qlt_not_le x y).
Qed.

Lemma debit_clamped (a b : Q) : b - a < 0 → debit a b = 0.
Proof. intros H. unfold debit. apply Qlt_bool_iff in H. by rewrite H. Qed.

Lemma debit_covered (a b : Q) : 0 <= b - a → debit a b = b - a.
Proof.
  intros H. unfold debit. destruct (Qlt_bool (b - a) 0) eqn:E; [|done].
  apply Qlt_bool_iff in E. exfalso. by apply (Qlt_not_le (b - a) 0).
Qed.

Lemma debit_nonneg (a b : Q) : 0 <= debit a b.
Proof.
  destruct (Qlt_le_dec (b - a) 0) as [H|H].
  - rewrite debit_clamped by done. apply Qle_refl.
  - by rewrite debit_covered.
Qed.

Lemma debit_short (a b : Q) : b < a → debit a b = 0.
Proof. intros H. apply debit_clamped. lra. Qed.

Lemma debit_nothing_left (a : Q) : 0 < a → debit a 0 = 0.
Proof. apply debit_short. Qed.

Lemma staggered_step_nonneg pd a b day : 0 <= b → 0 <= staggered_step pd a b day.
Proof.
  intros Hb. unfold staggered_step. destruct (py_in day pd); [|done].
  apply debit_nonneg.
Qed.

Lemma lump_sum_step_nonneg d a b day : 0 <= b → 0 <= lump_sum_step d a b day.
Proof.
  intros Hb. unfold lump_sum_step. destruct (day =? d)%Z; [|done].
  apply debit_nonneg.
Qed.

Lemma py_in_elem_of (x : Z) (t : list Z) : py_in x t = true ↔ x ∈ t.
Proof.
  induction t as [|y t IH]; simpl.
  - split; [done | by intros ?%elem_of_nil].
  - rewrite elem_of_cons. destruct (Z.eqb_spec x y) as [->|Hne].
    + by split; [left|].
    + rewrite IH. split; [by right | by intros [?|?]].
Qed.

(** ** The skeleton *)

Section SkeletonFacts.

Variable step : Q → Z → Q.

Lemma foldl_day_step (days : list Z) (st : loop_state) :
  foldl (day_step step) st days
  = (foldl step st.1 days, st.2 ++ trace step st.1 days).
Proof.
  revert st. induction days as [|d days IH]; intros [b acc]; simpl.
  - by rewrite app_nil_r.
  - rewrite IH. simpl. by rewrite <- app_assoc.
Qed.

Lemma nested_loops (initial_balance : Q) (months days_per_month : Z) :
  (foldl (λ st _, foldl (day_step step) st (py_range 1 (days_per_month + 1)))
         (initial_balance, []) (py_range 0 months)).2
  = trace step initial_balance (calendar months days_per_month).
Proof. rewrite foldl_months, foldl_day_step. done. Qed.

Lemma length_trace (days : list Z) (b : Q) :
  length (trace step b days) = length days.
Proof. revert b. induction days; intros; simpl; auto. Qed.

(** Entry [i] of the trace is the balance after the first [i + 1] days. *)
Lemma trace_lookup (days : list Z) (b : Q) (i : nat) :
  (i < length days)%nat →
  trace step b days !! i = Some (foldl step b (take (S i) days)).
Proof.
  revert b i. induction days as [|d days IH]; intros b i Hi; simpl in *; [lia|].
  destruct i as [|i]; simpl; [done|].
  rewrite IH by lia. done.
Qed.

Lemma balance_before_trace (days : list Z) (b : Q) (i : nat) :
  (i <= length days)%nat →
  balance_before b (trace step b days) i = foldl step b (take i days).
Proof.
  intros Hi. destruct i as [|i]; simpl; [done|].
  rewrite trace_lookup by lia. done.
Qed.

Lemma foldl_take_S (days : list Z) (b : Q) (i : nat) (d : Z) :
  days !! i = Some d →
  foldl step b (take (S i) days) = step (foldl step b (take i days)) d.
Proof.
  intros Hd. erewrite take_S_r by exact Hd. by rewrite foldl_app.
Qed.

(** Each entry is obtained from the balance before it by that day's
    statements. *)
Lemma trace_recurrence (ib : Q) (months dpm : Z) (i : nat) :
  let series := trace step ib (calendar months dpm) in
  (i < length series)%nat →
  series !! i = Some (step (balance_before ib series i) (day_of_index dpm i)).
Proof.
  intros series Hi. unfold series in *. rewrite length_trace in Hi.
  rewrite trace_lookup by done.
  rewrite (foldl_take_S _ _ _ (day_of_index dpm i)) by by apply lookup_calendar.
  by rewrite balance_before_trace by lia.
Qed.

(** An invariant of [step] holds for every recorded balance. *)
Lemma trace_Forall (P : Q → Prop) (days : list Z) (b : Q) :
  (∀ b d, P b → d ∈ days → P (step b d)) →
  P b → Forall P (trace step b days).
Proof.
  revert b. induction days as [|d days IH]; intros b Hstep Hb; simpl.
  - constructor.
  - assert (P (step b d)) by (apply Hstep; [done | left]).
    constructor; [done|].
    apply IH; [|done]. intros b' d' Hb' Hd'. apply Hstep; [done | by right].
Qed.

(** When no visited day changes the balance the trace is flat. *)
Lemma trace_flat (days : list Z) (b : Q) :
  (∀ b d, d ∈ days → step b d = b) →
  trace step b days = replicate (length days) b.
Proof.
  induction days as [|d days IH]; intros Hstep; simpl; [done|].
  rewrite Hstep by left. f_equal. apply IH.
  intros b' d' Hd'. apply Hstep. by right.
Qed.

Lemma balance_before_nonneg (ib : Q) (days : list Z) (i : nat) :
  (∀ b d, 0 <= b → 0 <= step b d) → 0 <= ib →
  (i <= length days)%nat →
  0 <= balance_before ib (trace step ib days) i.
Proof.
  intros Hstep Hib Hi. rewrite balance_before_trace by done.
  generalize (take i days). intros l. revert ib Hib.
  induction l as [|x l IH]; intros ib Hib; simpl; [done|].
  apply IH, Hstep, Hib.
Qed.

(** Once an entry is zero, a [step] that keeps zero at zero keeps every
    later entry at zero. *)
Lemma trace_absorbed (ib : Q) (months dpm : Z) (i j : nat) :
  let series := trace step ib (calendar months dpm) in
  (∀ day, step 0 day = 0) →
  (i <= j < length series)%nat →
  series !! i = Some 0 → series !! j = Some 0.
Proof.
  intros series Hzero [Hij Hj] Hi.
  induction j as [|j IH]; [by replace i with 0%nat in Hi by lia|].
  destruct (decide (i = S j)) as [<-|Hne]; [done|].
  unfold series. rewrite trace_recurrence by done. fold series.
  simpl. rewrite IH by lia. simpl. by rewrite Hzero.
Qed.

(** On the heap the loop appends the same trace to the list object. *)
Lemma foldl_heap_day (l : loc) (days : list Z) (b : Q) (h : heap) (xs : list Q) :
  h !! l = Some xs →
  foldl (heap_day step l) (b, h) days
  = (foldl step b days, <[l := xs ++ trace step b days]> h).
Proof.
  revert b h xs. induction days as [|d days IH]; intros b h xs Hl; simpl.
  - by rewrite app_nil_r, insert_id.
  - unfold heap_day at 2. simpl. unfold list_append. rewrite Hl.
    erewrite IH by apply lookup_insert_eq.
    by rewrite insert_insert_eq, <- app_assoc.
Qed.

Lemma heap_nested_loops (l : loc) (ib : Q) (months dpm : Z) (h : heap) :
  (foldl (λ st _, foldl (heap_day step l) st (py_range 1 (dpm + 1)))
         (ib, <[l := []]> h) (py_range 0 months)).2
  = <[l := trace step ib (calendar months dpm)]> h.
Proof.
  rewrite foldl_months.
  erewrite foldl_heap_day by apply lookup_insert_eq.
  simpl. by rewrite insert_insert_eq.
Qed.

End SkeletonFacts.

(** ** Each simulator is the skeleton with its own test *)

Lemma staggered_day_body pd a st day :
  Staggered.day_body pd a st day = day_step (staggered_step pd a) st day.
Proof. by destruct st. Qed.

Lemma lump_sum_day_body d a st day :
  LumpSum.day_body d a st day = day_step (lump_sum_step d a) st day.
Proof. by destruct st. Qed.

Lemma staggered_unfold ib rate months dpm pd a :
  simulate_payments_staggered ib rate months dpm pd a
  = simulate_with (staggered_step pd a) ib rate months dpm.
Proof.
  unfold simulate_payments_staggered, simulate_with.
  rewrite <- (nested_loops (staggered_step pd a)).
  rewrite (foldl_pointwise (Staggered.month_body dpm pd a)
             (λ st _, foldl (day_step (staggered_step pd a)) st
                            (py_range 1 (dpm + 1)))).
  - by destruct (foldl _ _ _).
  - intros st m. apply foldl_pointwise, staggered_day_body.
Qed.

Lemma lump_sum_unfold ib rate months dpm d a :
  simulate_payments_lump_sum ib rate months dpm d a
  = simulate_with (lump_sum_step d a) ib rate months dpm.
Proof.
  unfold simulate_payments_lump_sum, simulate_with.
  rewrite <- (nested_loops (lump_sum_step d a)).
  rewrite (foldl_pointwise (LumpSum.month_body dpm d a)
             (λ st _, foldl (day_step (lump_sum_step d a)) st
                            (py_range 1 (dpm + 1)))).
  - by destruct (foldl _ _ _).
  - intros st m. apply foldl_pointwise, lump_sum_day_body.
Qed.

Lemma series_staggered ib rate months dpm pd a :
  series_of (simulate_payments_staggered ib rate months dpm pd a)
  = trace (staggered_step pd a) ib (calendar months dpm).
Proof. by rewrite staggered_unfold. Qed.

Lemma series_lump_sum ib rate months dpm d a :
  series_of (simulate_payments_lump_sum ib rate months dpm d a)
  = trace (lump_sum_step d a) ib (calendar months dpm).
Proof. by rewrite lump_sum_unfold. Qed.

(** ** The summary statistics *)

Lemma foldl_Qplus (l : list Q) (acc : Q) :
  foldl Qplus acc l == acc + sum_entries l.
Proof.
  revert acc. induction l as [|x l IH]; intros acc; simpl.
  - ring.
  - rewrite IH. ring.
Qed.

Lemma np_mean_nonempty (l : list Q) :
  l ≠ [] → ∃ m, np_mean l = Some m ∧ m == arithmetic_mean l.
Proof.
  intros Hl. destruct l as [|x l]; [done|].
  eexists. split; [reflexivity|].
  unfold arithmetic_mean. by rewrite foldl_Qplus, Qplus_0_l.
Qed.

(** With [months = 0] or [days_per_month = 0] both statistics are NaN. *)
Lemma simulate_with_empty step ib rate months dpm :
  (months <= 0 ∨ dpm <= 0)%Z →
  simulate_with step ib rate months dpm = ([], None, None).
Proof.
  intros Hz. unfold simulate_with.
  assert (calendar months dpm = []) as ->; [|done].
  apply length_zero_iff_nil. rewrite length_calendar. lia.
Qed.

Lemma simulate_with_summarises step ib rate months dpm :
  series_of (simulate_with step ib rate months dpm) ≠ [] →
  summarises rate (simulate_with step ib rate months dpm).
Proof.
  unfold simulate_with, series_of, summarises, average_of, interest_of. simpl.
  intros Hne. destruct (np_mean_nonempty _ Hne) as (m & Hm & Hmean).
  exists m. by rewrite Hm.
Qed.

(** ** Calls on the heap *)

Lemma staggered_call_day_body l pd a st day :
  StaggeredCall.day_body l pd a st day = heap_day (staggered_step pd a) l st day.
Proof. by destruct st. Qed.

Lemma lump_sum_call_day_body l d a st day :
  LumpSumCall.day_body l d a st day = heap_day (lump_sum_step d a) l st day.
Proof. by destruct st. Qed.

Lemma returned_with step ib rate months dpm (h : heap) :
  let l := fresh (dom h) in
  let st := foldl (λ st _, foldl (heap_day step l) st (py_range 1 (dpm + 1)))
                  (ib, <[l := []]> h) (py_range 0 months) in
  let avg_daily_balance := np_mean (default [] (st.2 !! l)) in
  ((l, mul_rate avg_daily_balance rate, avg_daily_balance), st.2)
  = returned (simulate_with step ib rate months dpm) h.
Proof.
  intros l st avg. unfold avg, st. rewrite heap_nested_loops.
  unfold returned. fold l. by rewrite lookup_insert_eq.
Qed.

Lemma staggered_call_spec ib rate months dpm pd a h :
  simulate_payments_staggered_call ib rate months dpm pd a h
  = returned (simulate_payments_staggered ib rate months dpm pd a) h.
Proof.
  rewrite staggered_unfold, <- returned_with.
  unfold simulate_payments_staggered_call, new_list.
  rewrite (foldl_pointwise
             (StaggeredCall.month_body (fresh (dom h)) dpm pd a)
             (λ st _, foldl (heap_day (staggered_step pd a) (fresh (dom h))) st
                            (py_range 1 (dpm + 1)))).
  - by destruct (foldl _ _ _).
  - intros st m. apply foldl_pointwise, staggered_call_day_body.
Qed.

Lemma lump_sum_call_spec ib rate months dpm d a h :
  simulate_payments_lump_sum_call ib rate months dpm d a h
  = returned (simulate_payments_lump_sum ib rate months dpm d a) h.
Proof.
  rewrite lump_sum_unfold, <- returned_with.
  unfold simulate_payments_lump_sum_call, new_list.
  rewrite (foldl_pointwise
             (LumpSumCall.month_body (fresh (dom h)) dpm d a)
             (λ st _, foldl (heap_day (lump_sum_step d a) (fresh (dom h))) st
                            (py_range 1 (dpm + 1)))).
  - by destruct (foldl _ _ _).
  - intros st m. apply foldl_pointwise, lump_sum_call_day_body.
Qed.

Lemma call_series_returned r (h : heap) :
  call_series (returned r h) = Some (series_of r).
Proof. unfold call_series, returned. simpl. apply lookup_insert_eq. Qed.

Lemma returned_object_new r (h : heap) :
  h !! call_object (returned r h) = None.
Proof. simpl. apply not_elem_of_dom, is_fresh. Qed.

Lemma returned_frame r (h : heap) l xs :
  h !! l = Some xs → call_heap (returned r h) !! l = Some xs.
Proof.
  intros Hl. unfold call_heap, returned. simpl.
  rewrite lookup_insert_ne; [done|]. intros Heq.
  pose proof (is_fresh (dom h)) as Hnew. apply not_elem_of_dom in Hnew.
  rewrite Heq in Hnew. congruence.
Qed.

(** ** Properties of the simulators *)

(** C1: with [months >= 0] and [days_per_month >= 0], the series returned by
    [simulate_payments_staggered] and the one returned by
    [simulate_payments_lump_sum] both have exactly
    [months * days_per_month] entries, whatever the schedule. *)
Theorem series_length ib rate months dpm pd pa d la :
  (0 <= months)%Z → (0 <= dpm)%Z →
  Z.of_nat (length (series_of (simulate_payments_staggered ib rate months dpm pd pa)))
    = (months * dpm)%Z
  ∧ Z.of_nat (length (series_of (simulate_payments_lump_sum ib rate months dpm d la)))
    = (months * dpm)%Z.
Proof.
  intros Hm Hd.
  rewrite series_staggered, series_lump_sum, !length_trace, length_calendar.
  split; lia.
Qed.

Lemma series_length_witness :
  Z.of_nat (length (series_of
     (simulate_payments_staggered 30000 (4#100) 12 30 [7; 14; 21; 28]%Z 1000)))
    = (12 * 30)%Z
  ∧ Z.of_nat (length (series_of
     (simulate_payments_lump_sum 30000 (4#100) 12 30 28 4000)))
    = (12 * 30)%Z.
Proof. apply series_length; lia. Defined.

(** C2: with a non-negative [initial_balance], every entry of either series
    is [>= 0].  Entry [i] comes from the balance before it: on a payment day
    whose debit would go below zero the entry is exactly [0], and on a day
    without payment the entry is the previous balance. *)
Theorem balance_never_negative ib rate months dpm pd pa d la :
  0 <= ib →
  let stag := series_of (simulate_payments_staggered ib rate months dpm pd pa) in
  let lump := series_of (simulate_payments_lump_sum ib rate months dpm d la) in
  Forall (λ x, 0 <= x) stag
  ∧ Forall (λ x, 0 <= x) lump
  ∧ (∀ i, (i < length stag)%nat →
       (py_in (day_of_index dpm i) pd = true →
        balance_before ib stag i - pa < 0 → stag !! i = Some 0)
       ∧ (py_in (day_of_index dpm i) pd = false →
          stag !! i = Some (balance_before ib stag i)))
  ∧ (∀ i, (i < length lump)%nat →
       (day_of_index dpm i = d →
        balance_before ib lump i - la < 0 → lump !! i = Some 0)
       ∧ (day_of_index dpm i ≠ d →
          lump !! i = Some (balance_before ib lump i))).
Proof.
  intros Hib stag lump. unfold stag, lump.
  rewrite series_staggered, series_lump_sum.
  split; [|split; [|split]].
  - apply trace_Forall; [|done]. intros b day Hb _. by apply staggered_step_nonneg.
  - apply trace_Forall; [|done]. intros b day Hb _. by apply lump_sum_step_nonneg.
  - intros i Hi. rewrite trace_recurrence by done. unfold staggered_step.
    split; intros Hday.
    + intros Hneg. rewrite Hday. by rewrite debit_clamped.
    + by rewrite Hday.
  - intros i Hi. rewrite trace_recurrence by done. unfold lump_sum_step.
    split; intros Hday.
    + intros Hneg. rewrite Hday, Z.eqb_refl. by rewrite debit_clamped.
    + apply Z.eqb_neq in Hday. by rewrite Hday.
Qed.

Lemma balance_never_negative_witness :
  let stag := series_of (simulate_payments_staggered 2500 (4#100) 2 30 [7; 14; 21; 28]%Z 1000) in
  let lump := series_of (simulate_payments_lump_sum 2500 (4#100) 2 30 28 4000) in
  Forall (λ x, 0 <= x) stag
  ∧ Forall (λ x, 0 <= x) lump
  ∧ (∀ i, (i < length stag)%nat →
       (py_in (day_of_index 30 i) [7; 14; 21; 28]%Z = true →
        balance_before 2500 stag i - 1000 < 0 → stag !! i = Some 0)
       ∧ (py_in (day_of_index 30 i) [7; 14; 21; 28]%Z = false →
          stag !! i = Some (balance_before 2500 stag i)))
  ∧ (∀ i, (i < length lump)%nat →
       (day_of_index 30 i = 28%Z →
        balance_before 2500 lump i - 4000 < 0 → lump !! i = Some 0)
       ∧ (day_of_index 30 i ≠ 28%Z →
          lump !! i = Some (balance_before 2500 lump i))).
Proof. apply balance_never_negative. lra. Defined.

(** C3: when the series a simulator returns is non-empty, the returned
    average daily balance is the sum of the entries divided by their number,
    and the returned annual interest is that average times
    [annual_interest_rate]. *)
Theorem summary_is_mean_times_rate ib rate months dpm pd pa d la :
  series_of (simulate_payments_staggered ib rate months dpm pd pa) ≠ [] →
  series_of (simulate_payments_lump_sum ib rate months dpm d la) ≠ [] →
  summarises rate (simulate_payments_staggered ib rate months dpm pd pa)
  ∧ summarises rate (simulate_payments_lump_sum ib rate months dpm d la).
Proof.
  rewrite staggered_unfold, lump_sum_unfold. intros Hs Hl.
  split; by apply simulate_with_summarises.
Qed.

Lemma summary_is_mean_times_rate_witness :
  summarises (4#100) scenario_staggered ∧ summarises (4#100) scenario_lump_sum.
Proof.
  apply summary_is_mean_times_rate; vm_compute; discriminate.
Defined.

(** C4: with [months >= 1] and [days_per_month >= 1], the staggered series
    for an empty [payment_days] and the lump-sum series for a [payment_day]
    outside [1 .. days_per_month] consist of [months * days_per_month]
    copies of [initial_balance]. *)
Theorem no_payment_day_flat ib rate months dpm pa d la :
  (1 <= months)%Z → (1 <= dpm)%Z → (d < 1 ∨ dpm < d)%Z →
  series_of (simulate_payments_staggered ib rate months dpm [] pa)
    = replicate (Z.to_nat (months * dpm)) ib
  ∧ series_of (simulate_payments_lump_sum ib rate months dpm d la)
    = replicate (Z.to_nat (months * dpm)) ib.
Proof.
  intros Hm Hd Hout.
  assert (length (calendar months dpm) = Z.to_nat (months * dpm)) as Hlen
    by (rewrite length_calendar; lia).
  rewrite series_staggered, series_lump_sum. split.
  - rewrite trace_flat, Hlen; done.
  - rewrite trace_flat, Hlen; [done|].
    intros b day Hday%elem_of_calendar. unfold lump_sum_step.
    destruct (Z.eqb_spec day d); [lia | done].
Qed.

Lemma no_payment_day_flat_witness :
  series_of (simulate_payments_staggered 30000 (4#100) 12 30 [] 1000)
    = replicate (Z.to_nat (12 * 30)) 30000
  ∧ series_of (simulate_payments_lump_sum 30000 (4#100) 12 30 31 4000)
    = replicate (Z.to_nat (12 * 30)) 30000.
Proof. apply no_payment_day_flat; lia. Defined.

(** C5: [simulate_payments_lump_sum] with [payment_day = d] returns the same
    triple (series, annual interest, average daily balance) as
    [simulate_payments_staggered] with [payment_days = (d,)] and the same
    amount. *)
Theorem lump_sum_is_singleton_staggered ib rate months dpm d a :
  simulate_payments_lump_sum ib rate months dpm d a
  = simulate_payments_staggered ib rate months dpm [d] a.
Proof.
  unfold simulate_payments_lump_sum, simulate_payments_staggered.
  rewrite (foldl_pointwise (LumpSum.month_body dpm d a)
                           (Staggered.month_body dpm [d] a)); [done|].
  intros st m. apply foldl_pointwise. intros [b acc] day. simpl.
  by destruct (day =? d)%Z.
Qed.

(** C6, as stated, fails: with the default arguments the staggered average
    daily balance is not greater than the lump-sum one. *)
Lemma scenario_average_not_greater :
  ¬ mean_lt (average_of scenario_lump_sum) (average_of scenario_staggered).
Proof. vm_compute. intros H. discriminate H. Qed.

(** C6 (amended): with the default arguments the average daily balance of
    the staggered series is strictly smaller than that of the lump-sum
    series. *)
Theorem scenario_average_smaller :
  mean_lt (average_of scenario_staggered) (average_of scenario_lump_sum).
Proof. vm_compute. reflexivity. Qed.

(** C7: in the staggered run with the default arguments the entry recorded on
    day 28 of the first month (position 27) is 26000, and the series has 360
    entries. *)
Theorem scenario_staggered_day_28 :
  series_of scenario_staggered !! 27%nat = Some 26000
  ∧ length (series_of scenario_staggered) = 360%nat.
Proof. split; vm_compute; reflexivity. Qed.

(** C8: with non-negative [initial_balance] and [payment_amount], if on a
    payment day (position [i]) the amount exceeds the balance before it, the
    entry of that day is exactly 0 and so is every later entry [j]. *)
Theorem short_payment_empties_account ib rate months dpm pd pa d la i j :
  0 <= ib → 0 <= pa → 0 <= la → (i <= j)%nat →
  let stag := series_of (simulate_payments_staggered ib rate months dpm pd pa) in
  let lump := series_of (simulate_payments_lump_sum ib rate months dpm d la) in
  ((j < length stag)%nat →
   py_in (day_of_index dpm i) pd = true →
   balance_before ib stag i < pa →
   stag !! i = Some 0 ∧ stag !! j = Some 0)
  ∧ ((j < length lump)%nat →
     day_of_index dpm i = d →
     balance_before ib lump i < la →
     lump !! i = Some 0 ∧ lump !! j = Some 0).
Proof.
  intros Hib _ _ Hij stag lump. unfold stag, lump.
  rewrite series_staggered, series_lump_sum. split.
  - intros Hj Hday Hshort.
    assert (0 < pa) as Hpa.
    { eapply Qle_lt_trans; [|exact Hshort].
      apply balance_before_nonneg; [|done|rewrite length_trace in Hj; lia].
      intros b day Hb. by apply staggered_step_nonneg. }
    assert (trace (staggered_step pd pa) ib (calendar months dpm) !! i = Some 0) as Hi.
    { rewrite trace_recurrence by lia. unfold staggered_step.
      rewrite Hday. by rewrite debit_short. }
    split; [done|]. apply (trace_absorbed _ _ _ _ i); [|lia|done].
    intros day. unfold staggered_step. destruct (py_in day pd); [|done].
    by apply debit_nothing_left.
  - intros Hj Hday Hshort.
    assert (0 < la) as Hla.
    { eapply Qle_lt_trans; [|exact Hshort].
      apply balance_before_nonneg; [|done|rewrite length_trace in Hj; lia].
      intros b day Hb. by apply lump_sum_step_nonneg. }
    assert (trace (lump_sum_step d la) ib (calendar months dpm) !! i = Some 0) as Hi.
    { rewrite trace_recurrence by lia. unfold lump_sum_step.
      rewrite Hday, Z.eqb_refl. by rewrite debit_short. }
    split; [done|]. apply (trace_absorbed _ _ _ _ i); [|lia|done].
    intros day. unfold lump_sum_step. destruct (day =? d)%Z; [|done].
    by apply debit_nothing_left.
Qed.

(** A run that is short of money in its first month: starting from 2500,
    the staggered balance before day 21 (position 20) is 500, less than the
    1000 due; the lump-sum balance before day 28 (position 27) is 2500, less
    than the 4000 due. *)
Lemma short_payment_empties_account_witness :
  let stag := series_of (simulate_payments_staggered 2500 (4#100) 2 30 [7; 14; 21; 28]%Z 1000) in
  let lump := series_of (simulate_payments_lump_sum 2500 (4#100) 2 30 28 4000) in
  (stag !! 20%nat = Some 0 ∧ stag !! 59%nat = Some 0)
  ∧ (lump !! 27%nat = Some 0 ∧ lump !! 59%nat = Some 0).
Proof.
  split.
  - apply (proj1 (short_payment_empties_account
                    2500 (4#100) 2 30 [7; 14; 21; 28]%Z 1000 28 4000 20 59
                    ltac:(lra) ltac:(lra) ltac:(lra) ltac:(lia))).
    + vm_compute. lia.
    + vm_compute. reflexivity.
    + vm_compute. reflexivity.
  - apply (proj2 (short_payment_empties_account
                    2500 (4#100) 2 30 [7; 14; 21; 28]%Z 1000 28 4000 27 59
                    ltac:(lra) ltac:(lra) ltac:(lra) ltac:(lia))).
    + vm_compute. lia.
    + vm_compute. reflexivity.
    + vm_compute. reflexivity.
Defined.

(** C9: two calls of a simulator with identical arguments, made on any two
    heaps [h] and [h'] (so whatever was allocated or changed in between),
    return the same series contents, the same average daily balance and the
    same annual interest, which are those of the heap-free function.  The
    series object of a call is new, and the objects that existed before the
    call are left as they were. *)
Theorem calls_are_deterministic ib rate months dpm pd pa d la (h h' : heap) :
  let s1 := simulate_payments_staggered_call ib rate months dpm pd pa h in
  let s2 := simulate_payments_staggered_call ib rate months dpm pd pa h' in
  let l1 := simulate_payments_lump_sum_call ib rate months dpm d la h in
  let l2 := simulate_payments_lump_sum_call ib rate months dpm d la h' in
  (call_series s1
     = Some (series_of (simulate_payments_staggered ib rate months dpm pd pa))
   ∧ call_series s1 = call_series s2
   ∧ call_average s1 = call_average s2
   ∧ call_interest s1 = call_interest s2)
  ∧ (call_series l1
       = Some (series_of (simulate_payments_lump_sum ib rate months dpm d la))
     ∧ call_series l1 = call_series l2
     ∧ call_average l1 = call_average l2
     ∧ call_interest l1 = call_interest l2)
  ∧ (h !! call_object s1 = None ∧ h !! call_object l1 = None)
  ∧ (∀ l xs, h !! l = Some xs →
       call_heap s1 !! l = Some xs ∧ call_heap l1 !! l = Some xs).
Proof.
  intros s1 s2 l1 l2. unfold s1, s2, l1, l2.
  rewrite !staggered_call_spec, !lump_sum_call_spec, !call_series_returned.
  split; [by repeat split|]. split; [by repeat split|]. split.
  - split; apply returned_object_new.
  - intros l xs Hl. split; by apply returned_frame.
Qed.

(** C10: a day listed several times in [payment_days] is debited as if it
    were listed once: each day applies no debit or exactly one, and the
    result is the one for the schedule without its duplicates. *)
Theorem duplicate_days_debit_once ib rate months dpm pd a :
  (∀ b acc day,
     Staggered.day_body pd a (b, acc) day = (b, acc ++ [b])
     ∨ Staggered.day_body pd a (b, acc) day = (debit a b, acc ++ [debit a b]))
  ∧ simulate_payments_staggered ib rate months dpm pd a
    = simulate_payments_staggered ib rate months dpm (remove_dups pd) a.
Proof.
  split.
  - intros b acc day. simpl. destruct (py_in day pd); [by right | by left].
  - unfold simulate_payments_staggered.
    rewrite (foldl_pointwise (Staggered.month_body dpm pd a)
                             (Staggered.month_body dpm (remove_dups pd) a)); [done|].
    intros st m. apply foldl_pointwise. intros [b acc] day. simpl.
    replace (py_in day (remove_dups pd)) with (py_in day pd); [done|].
    apply eq_true_iff_eq. rewrite !py_in_elem_of. by rewrite elem_of_remove_dups.
Qed.

(** ** Further properties of the simulators *)

Lemma clamp_debit (a b : Q) : debit a b = clamp (b - a).
Proof. reflexivity. Qed.

Lemma clamp_nonneg (x : Q) : 0 <= clamp x.
Proof.
  unfold clamp. destruct (Qlt_bool x 0) eqn:E; [apply Qle_refl|].
  apply Qnot_lt_le. intros H. apply Qlt_bool_iff in H. congruence.
Qed.

Lemma clamp_of_nonneg (x : Q) : 0 <= x → clamp x = x.
Proof.
  intros H. unfold clamp. destruct (Qlt_bool x 0) eqn:E; [|done].
  apply Qlt_bool_iff in E. exfalso. by apply (Qlt_not_le x 0).
Qed.

Lemma clamp_of_neg (x : Q) : x < 0 → clamp x = 0.
Proof. intros H. unfold clamp. apply Qlt_bool_iff in H. by rewrite H. Qed.

Lemma clamp_le (x y : Q) : x <= y → clamp x <= clamp y.
Proof.
  intros Hxy. destruct (Qlt_le_dec x 0) as [Hx|Hx].
  - rewrite (clamp_of_neg x) by done. apply clamp_nonneg.
  - rewrite !clamp_of_nonneg by lra. done.
Qed.

Lemma clamp_eq (x y : Q) : x == y → clamp x == clamp y.
Proof. intros Hxy. apply Qle_antisym; apply clamp_le; lra. Qed.

(** Cutting off, paying and cutting off again is paying and cutting off. *)
Lemma clamp_debit_clamp (a x : Q) : 0 <= a → debit a (clamp x) == clamp (x - a).
Proof.
  intros Ha. rewrite clamp_debit. destruct (Qlt_le_dec x 0) as [Hx|Hx].
  - rewrite (clamp_of_neg x), (clamp_of_neg (x - a)) by lra.
    destruct (Qlt_le_dec (0 - a) 0) as [Hn|Hn].
    + by rewrite clamp_of_neg.
    + rewrite clamp_of_nonneg by done. lra.
  - rewrite (clamp_of_nonneg x) by done. reflexivity.
Qed.

Lemma Qnat_S (n : nat) : Qnat (S n) == 1 + Qnat n.
Proof.
  unfold Qnat. rewrite Nat2Z.inj_succ. unfold Z.succ.
  rewrite inject_Z_plus. ring.
Qed.

Lemma Qnat_add (n m : nat) : Qnat (n + m) == Qnat n + Qnat m.
Proof. unfold Qnat. by rewrite Nat2Z.inj_add, inject_Z_plus. Qed.


Lemma Qnat_nonneg (n : nat) : 0 <= Qnat n.
Proof.
  unfold Qnat. change 0 with (inject_Z 0). rewrite <- Zle_Qle. lia.
Qed.


Section ClosedForm.

Variable trigger : Z → bool.
Variable a : Q.
Hypothesis a_nonneg : 0 <= a.

(** With a non-negative amount the cutoffs compose: after any days the
    balance is the cutoff of the balance less everything that was due. *)
Lemma foldl_guarded_step (days : list Z) (b x : Q) :
  b == clamp x →
  foldl (guarded_step trigger a) b days
  == clamp (x - a * Qnat (payments trigger days)).
Proof.
  revert b x. induction days as [|d days IH]; intros b x Hb; simpl.
  - eapply Qeq_trans; [exact Hb|]. apply clamp_eq. unfold Qnat. simpl. ring.
  - unfold guarded_step at 2. destruct (trigger d).
    + eapply Qeq_trans; [apply (IH _ (x - a))|].
      * eapply Qeq_trans; [|apply (clamp_debit_clamp a x a_nonneg)].
        rewrite !clamp_debit. apply clamp_eq.
        apply Qplus_comp; [exact Hb | reflexivity].
      * apply clamp_eq.
        eapply Qeq_trans; [|apply Qplus_comp; [reflexivity|];
                            apply Qopp_comp, Qmult_comp; [reflexivity|];
                            symmetry; apply Qnat_S].
        ring.
    + exact (IH _ x Hb).
Qed.

Lemma guarded_entry (ib : Q) (months dpm : Z) (i : nat) (x : Q) :
  0 <= ib →
  trace (guarded_step trigger a) ib (calendar months dpm) !! i = Some x →
  x == clamp (ib - a * Qnat (payments_through trigger months dpm i)).
Proof.
  intros Hib Hx. pose proof (lookup_lt_Some _ _ _ Hx) as Hi.
  rewrite length_trace in Hi. rewrite trace_lookup in Hx by done.
  injection Hx as <-. apply foldl_guarded_step.
  by rewrite clamp_of_nonneg.
Qed.

Lemma guarded_entry_le (ib : Q) (months dpm : Z) (i : nat) (x : Q) :
  0 <= ib →
  trace (guarded_step trigger a) ib (calendar months dpm) !! i = Some x →
  0 <= x ∧ x <= ib.
Proof.
  intros Hib Hx. pose proof (guarded_entry _ _ _ _ _ Hib Hx) as Hc.
  pose proof (Qnat_nonneg (payments_through trigger months dpm i)) as Hn.
  pose proof (clamp_nonneg
    (ib - a * Qnat (payments_through trigger months dpm i))) as H0.
  assert (clamp (ib - a * Qnat (payments_through trigger months dpm i))
          <= clamp ib) as H1 by (apply clamp_le; nra).
  rewrite (clamp_of_nonneg ib) in H1 by done.
  split; lra.
Qed.

End ClosedForm.

Lemma staggered_step_guarded pd a :
  staggered_step pd a = guarded_step (staggered_due pd) a.
Proof. reflexivity. Qed.

Lemma lump_sum_step_guarded d a :
  lump_sum_step d a = guarded_step (lump_sum_due d) a.
Proof. reflexivity. Qed.



(** ** Counting the payment days of the calendar *)

Lemma payments_app t (l1 l2 : list Z) :
  payments t (l1 ++ l2) = (payments t l1 + payments t l2)%nat.
Proof. induction l1 as [|d l1 IH]; simpl; [done|]. rewrite IH. lia. Qed.



Lemma payments_take_le t (days : list Z) (r : nat) :
  (payments t (take r days) <= payments t days)%nat.
Proof.
  rewrite <- (take_drop r days) at 2. rewrite payments_app. lia.
Qed.












(** ** Comparing series and their means *)











(** X4: with non-negative [initial_balance] and amounts the series never
    increase: every entry is at most the balance before it and at most the
    initial balance. *)
Theorem balances_never_increase ib rate months dpm pd pa d la i x y :
  0 <= ib → 0 <= pa → 0 <= la →
  let stag := series_of (simulate_payments_staggered ib rate months dpm pd pa) in
  let lump := series_of (simulate_payments_lump_sum ib rate months dpm d la) in
  (stag !! i = Some x → x <= balance_before ib stag i ∧ x <= ib)
  ∧ (lump !! i = Some y → y <= balance_before ib lump i ∧ y <= ib).
Proof.
  intros Hib Hpa Hla stag lump. unfold stag, lump.
  rewrite series_staggered, series_lump_sum.
  assert (∀ a b, 0 <= a → 0 <= b → debit a b <= b) as Hdebit.
  { intros a b Ha Hb. rewrite clamp_debit.
    rewrite <- (clamp_of_nonneg b) at 2 by done. apply clamp_le. lra. }
  split; intros H; pose proof (lookup_lt_Some _ _ _ H) as Hi.
  - split.
    + rewrite trace_recurrence in H by done. injection H as <-.
      unfold staggered_step. destruct (py_in _ pd); [|apply Qle_refl].
      apply Hdebit; [done|].
      apply balance_before_nonneg; [|done|rewrite length_trace in Hi; lia].
      intros b day Hb. by apply staggered_step_nonneg.
    + rewrite staggered_step_guarded in H.
      by apply (guarded_entry_le _ _ Hpa _ _ _ _ _ Hib H).
  - split.
    + rewrite trace_recurrence in H by done. injection H as <-.
      unfold lump_sum_step. destruct (_ =? d)%Z; [|apply Qle_refl].
      apply Hdebit; [done|].
      apply balance_before_nonneg; [|done|rewrite length_trace in Hi; lia].
      intros b day Hb. by apply lump_sum_step_nonneg.
    + rewrite lump_sum_step_guarded in H.
      by apply (guarded_entry_le _ _ Hla _ _ _ _ _ Hib H).
Qed.

Lemma balances_never_increase_witness :
  (26000 <= balance_before 30000 (series_of scenario_staggered) 27
   ∧ 26000 <= 30000)
  ∧ (26000 <= balance_before 30000 (series_of scenario_lump_sum) 27
     ∧ 26000 <= 30000).
Proof.
  split.
  - apply (proj1 (balances_never_increase
                    30000 (4#100) 12 30 [7; 14; 21; 28]%Z 1000 28 4000
                    27 26000 26000 ltac:(lra) ltac:(lra) ltac:(lra))).
    vm_compute. reflexivity.
  - apply (proj2 (balances_never_increase
                    30000 (4#100) 12 30 [7; 14; 21; 28]%Z 1000 28 4000
                    27 26000 26000 ltac:(lra) ltac:(lra) ltac:(lra))).
    vm_compute. reflexivity.
Defined.





(** X6: with [months <= 0] or [days_per_month <= 0] the loops do not run:
    both simulators return an empty series and NaN for both statistics. *)
Theorem no_days_no_numbers ib rate months dpm pd pa d la :
  (months <= 0 ∨ dpm <= 0)%Z →
  simulate_payments_staggered ib rate months dpm pd pa = ([], None, None)
  ∧ simulate_payments_lump_sum ib rate months dpm d la = ([], None, None).
Proof.
  intros Hz. rewrite staggered_unfold, lump_sum_unfold.
  split; by apply simulate_with_empty.
Qed.

Lemma no_days_no_numbers_witness :
  simulate_payments_staggered 30000 (4#100) 0 30 [7; 14; 21; 28]%Z 1000
    = ([], None, None)
  ∧ simulate_payments_lump_sum 30000 (4#100) 0 30 28 4000 = ([], None, None).
Proof. apply no_days_no_numbers. lia. Defined.

Lemma trace_ext_in (step step' : Q → Z → Q) (days : list Z) (b : Q) :
  (∀ b d, d ∈ days → step b d = step' b d) →
  trace step b days = trace step' b days.
Proof.
  revert b. induction days as [|d days IH]; intros b H; simpl; [done|].
  rewrite (H b d) by left. f_equal. apply IH.
  intros b' d' Hd'. apply H. by right.
Qed.

(** X7: the staggered result depends on [payment_days] only through which
    days of [1 .. days_per_month] it contains: order, repetitions and
    entries outside the month make no difference. *)
Theorem schedule_only_by_days_of_month ib rate months dpm pd pd' pa :
  (∀ day, (1 <= day <= dpm)%Z → py_in day pd = py_in day pd') →
  simulate_payments_staggered ib rate months dpm pd pa
  = simulate_payments_staggered ib rate months dpm pd' pa.
Proof.
  intros Hsame. rewrite !staggered_unfold. unfold simulate_with.
  rewrite (trace_ext_in (staggered_step pd pa) (staggered_step pd' pa)); [done|].
  intros b day Hday%elem_of_calendar. unfold staggered_step.
  by rewrite Hsame.
Qed.

Lemma schedule_only_by_days_of_month_witness :
  simulate_payments_staggered 30000 (4#100) 12 30 [28; 7; 45; 7; 21; 0; 14]%Z 1000
  = simulate_payments_staggered 30000 (4#100) 12 30 [7; 14; 21; 28]%Z 1000.
Proof.
  apply schedule_only_by_days_of_month. intros day Hday. simpl.
  destruct (Z.eqb_spec day 28), (Z.eqb_spec day 7), (Z.eqb_spec day 45),
           (Z.eqb_spec day 21), (Z.eqb_spec day 0), (Z.eqb_spec day 14);
    reflexivity || lia.
Defined.

(** X8: a payment amount of zero leaves a non-negative balance untouched:
    every entry of either series equals the initial balance. *)
Theorem zero_amount_no_op ib rate months dpm pd pa d la i x y :
  0 <= ib → pa == 0 → la == 0 →
  (series_of (simulate_payments_staggered ib rate months dpm pd pa) !! i = Some x →
   x == ib)
  ∧ (series_of (simulate_payments_lump_sum ib rate months dpm d la) !! i = Some y →
     y == ib).
Proof.
  intros Hib Hpa Hla. rewrite series_staggered, series_lump_sum.
  rewrite staggered_step_guarded, lump_sum_step_guarded.
  split; intros H.
  - pose proof (guarded_entry _ pa ltac:(lra) _ _ _ _ _ Hib H) as E.
    pose proof (clamp_eq
      (ib - pa * Qnat (payments_through (staggered_due pd) months dpm i)) ib
      ltac:(nra)) as E'.
    rewrite (clamp_of_nonneg ib) in E' by done. lra.
  - pose proof (guarded_entry _ la ltac:(lra) _ _ _ _ _ Hib H) as E.
    pose proof (clamp_eq
      (ib - la * Qnat (payments_through (lump_sum_due d) months dpm i)) ib
      ltac:(nra)) as E'.
    rewrite (clamp_of_nonneg ib) in E' by done. lra.
Qed.

Lemma zero_amount_no_op_witness :
  30000 - 0 == 30000 ∧ 30000 - 0 == 30000.
Proof.
  split.
  - apply (proj1 (zero_amount_no_op
                    30000 (4#100) 12 30 [7; 14; 21; 28]%Z 0 28 0
                    100 (30000 - 0) (30000 - 0)
                    ltac:(lra) ltac:(lra) ltac:(lra))).
    vm_compute. reflexivity.
  - apply (proj2 (zero_amount_no_op
                    30000 (4#100) 12 30 [7; 14; 21; 28]%Z 0 28 0
                    100 (30000 - 0) (30000 - 0)
                    ltac:(lra) ltac:(lra) ltac:(lra))).
    vm_compute. reflexivity.
Defined.

(** ** The text field *)

Lemma py_split_nonempty sep s : py_split sep s ≠ [].
Proof.
  destruct s as [|c s]; simpl; [done|].
  destruct (Ascii.eqb c sep); [done|]. by destruct (py_split sep s).
Qed.

(** Splitting is field-wise: a separator between two texts separates their
    fields. *)
Lemma py_split_app sep s1 s2 :
  py_split sep (s1 ++ sep :: s2) = py_split sep s1 ++ py_split sep s2.
Proof.
  induction s1 as [|c s1 IH]; simpl.
  - by rewrite Ascii.eqb_refl.
  - destruct (Ascii.eqb c sep); [by rewrite IH|].
    rewrite IH. pose proof (py_split_nonempty sep s1).
    by destruct (py_split sep s1).
Qed.

Lemma py_split_no_sep sep s :
  Forall (λ c, c ≠ sep) s → py_split sep s = [s].
Proof.
  induction 1 as [|c s Hc _ IH]; simpl; [done|].
  apply Ascii.eqb_neq in Hc. by rewrite Hc, IH.
Qed.

Lemma py_split_cons sep c s :
  c ≠ sep →
  ∃ field fields, py_split sep s = field :: fields
                  ∧ py_split sep (c :: s) = (c :: field) :: fields.
Proof.
  intros Hc%Ascii.eqb_neq. simpl. rewrite Hc.
  pose proof (py_split_nonempty sep s).
  destruct (py_split sep s) as [|f fs]; [done|]. by exists f, fs.
Qed.

Lemma In_py_split sep s field c :
  In field (py_split sep s) → In c field → In c s.
Proof.
  revert field. induction s as [|c' s IH]; intros field; simpl.
  - intros [<-|[]]. done.
  - destruct (Ascii.eqb c' sep).
    + intros [<-|Hf]; [done|]. right. by apply (IH field).
    + pose proof (py_split_nonempty sep s).
      destruct (py_split sep s) as [|f fs]; [done|].
      intros [<-|Hf]; simpl.
      * intros [->|Hc]; [by left|]. right. apply (IH f); [by left|done].
      * intros Hc. right. apply (IH field); [by right|done].
Qed.

Lemma In_py_lstrip s c : In c (py_lstrip s) → In c s.
Proof.
  induction s as [|c' s IH]; simpl; [done|].
  destruct (py_isspace c'); [|done]. intros H. right. by apply IH.
Qed.

Lemma In_py_strip s c : In c (py_strip s) → In c s.
Proof.
  unfold py_strip, py_rstrip. intros H%in_rev%In_py_lstrip%in_rev.
  by apply In_py_lstrip.
Qed.

Lemma py_lstrip_no_space s :
  Forall (λ c, py_isspace c = false) s → py_lstrip s = s.
Proof. destruct 1 as [|c s Hc _]; simpl; [done|]. by rewrite Hc. Qed.

Lemma py_strip_no_space s :
  Forall (λ c, py_isspace c = false) s → py_strip s = s.
Proof.
  intros H. unfold py_strip, py_rstrip. rewrite (py_lstrip_no_space s H).
  rewrite py_lstrip_no_space; [apply rev_involutive|].
  apply Forall_forall. intros c Hc%list_elem_of_In%in_rev.
  rewrite Forall_forall in H. by apply H, list_elem_of_In.
Qed.

Lemma py_strip_leading_space c s :
  py_isspace c = true → py_strip (c :: s) = py_strip s.
Proof. intros Hc. unfold py_strip. simpl. by rewrite Hc. Qed.

(** ** Reading a number *)

Lemma decimal_is_digit c : py_isdecimal_char c = true → py_isdigit_char c = true.
Proof. intros H. unfold py_isdigit_char. by rewrite H. Qed.

Lemma superscript_not_decimal c :
  py_issuperscript c = true → py_isdecimal_char c = false.
Proof.
  unfold py_issuperscript, py_isdecimal_char.
  destruct (Nat.eqb_spec (nat_of_ascii c) 178) as [->|_]; [done|].
  destruct (Nat.eqb_spec (nat_of_ascii c) 179) as [->|_]; [done|].
  destruct (Nat.eqb_spec (nat_of_ascii c) 185) as [->|_]; [done|].
  done.
Qed.

Lemma digit_not_superscript_decimal c :
  py_isdigit_char c = true → py_issuperscript c = false →
  py_isdecimal_char c = true.
Proof.
  unfold py_isdigit_char. intros H Hs. rewrite Hs, orb_false_r in H. done.
Qed.

Lemma foldl_digits_nonneg s (acc : Z) :
  (0 <= acc)%Z →
  (0 <= foldl (λ acc c, 10 * acc + digit_value c) acc s)%Z.
Proof.
  revert acc. induction s as [|c s IH]; intros acc Hacc; simpl; [done|].
  apply IH. unfold digit_value. lia.
Qed.

Lemma py_int_nonneg s n : py_int s = Some n → (0 <= n)%Z.
Proof.
  unfold py_int. destruct s as [|c s]; [done|].
  destruct (forallb _ _); [|done]. intros [= <-].
  apply foldl_digits_nonneg. unfold digit_value. lia.
Qed.

Lemma py_int_decimal s :
  s ≠ [] → forallb py_isdecimal_char s = true → is_Some (py_int s).
Proof.
  intros Hs Hd. unfold py_int. destruct s as [|c s]; [done|].
  rewrite Hd. by eexists.
Qed.

Lemma py_isdigit_nonempty s : py_isdigit s = true → s ≠ [].
Proof. by destruct s. Qed.

Lemma py_isdigit_forall s c :
  py_isdigit s = true → In c s → py_isdigit_char c = true.
Proof.
  unfold py_isdigit. destruct s as [|c' s]; [done|].
  intros H Hc. rewrite forallb_forall in H. by apply H.
Qed.

Lemma mapM_option_app {A B} (f : A → option B) (l k : list A) :
  mapM f (l ++ k)
  = mapM f l ≫= (λ l', mapM f k ≫= (λ k', Some (l' ++ k'))).
Proof.
  induction l as [|x l IH]; simpl.
  - by destruct (mapM f k).
  - destruct (f x) as [y|]; simpl; [|done]. rewrite IH.
    destruct (mapM f l) as [l'|]; simpl; [|done].
    by destruct (mapM f k).
Qed.

Lemma parse_nonneg s days :
  parse_payment_days s = Some days → Forall (λ d, (0 <= d)%Z) days.
Proof.
  unfold parse_payment_days. intros H%mapM_Some_1.
  induction H as [|x d l k Hx _ IH]; constructor; [|done].
  by apply (py_int_nonneg (py_strip x)).
Qed.

Lemma parse_joined (s1 s2 : list ascii) :
  parse_payment_days (s1 ++ ","%char :: s2)
  = parse_payment_days s1 ≫= (λ days1,
      parse_payment_days s2 ≫= (λ days2, Some (days1 ++ days2))).
Proof.
  unfold parse_payment_days.
  by rewrite py_split_app, List.filter_app, mapM_option_app.
Qed.

(** X9: the days are read field by field: the days of two texts joined by a
    comma are the days of the first followed by the days of the second, and
    reading fails when reading either fails. *)
Theorem parse_fieldwise (s1 s2 : list ascii) :
  parse_payment_days (s1 ++ ","%char :: s2)
  = parse_payment_days s1 ≫= (λ days1,
      parse_payment_days s2 ≫= (λ days2, Some (days1 ++ days2))).
Proof.
  unfold parse_payment_days. rewrite py_split_app, List.filter_app.
  apply mapM_option_app.
Qed.

(** X10: whenever the text is read without error, every day read is
    non-negative and there is at most one day per field. *)
Theorem parsed_days_nonneg (s : list ascii) (days : list Z) :
  parse_payment_days s = Some days →
  Forall (λ d, (0 <= d)%Z) days
  ∧ (length days <= length (py_split "," s))%nat.
Proof.
  intros H. split; [by apply (parse_nonneg s)|].
  unfold parse_payment_days in H. apply length_mapM in H. rewrite <- H.
  apply List.filter_length_le.
Qed.

Lemma parsed_days_nonneg_witness :
  Forall (λ d, (0 <= d)%Z) [7; 14; 21; 28]%Z
  ∧ (length [7; 14; 21; 28]%Z <= length (py_split "," default_payment_days_str))%nat.
Proof. apply parsed_days_nonneg. reflexivity. Defined.

(** X11: a text without superscript digits (any ASCII text, for one) is
    read without error. *)
Theorem parse_without_superscripts (s : list ascii) :
  (∀ c, In c s → py_issuperscript c = false) → short_text s →
  is_Some (parse_payment_days s).
Proof.
  intros Hs _. unfold parse_payment_days. apply mapM_is_Some_2.
  apply Forall_forall. intros x Hx%list_elem_of_In%List.filter_In.
  destruct Hx as [Hx Hdigit]. simpl.
  apply py_int_decimal; [by apply py_isdigit_nonempty|].
  apply forallb_forall. intros c Hc.
  apply digit_not_superscript_decimal.
  - by apply (py_isdigit_forall (py_strip x)).
  - apply Hs. apply (In_py_split "," s x); [done|]. by apply In_py_strip.
Qed.

Lemma parse_without_superscripts_witness :
  is_Some (parse_payment_days default_payment_days_str).
Proof.
  apply parse_without_superscripts.
  - intros c Hc. simpl in Hc.
    repeat (destruct Hc as [<-|Hc]; [reflexivity|]). destruct Hc.
  - unfold short_text. simpl. lia.
Defined.

(** X12: a field that passes [isdigit] but holds a superscript digit makes
    [int] raise: the text is not read, and [main] fails with it. *)
Theorem parse_superscript_raises (w : widgets) (field : list ascii) (c : ascii) :
  In field (py_split "," (w_payment_days_str w)) →
  py_isdigit (py_strip field) = true →
  In c (py_strip field) → py_issuperscript c = true →
  parse_payment_days (w_payment_days_str w) = None ∧ main w = None.
Proof.
  intros Hfield Hdigit Hc Hsup.
  assert (parse_payment_days (w_payment_days_str w) = None) as Hnone.
  { unfold parse_payment_days. apply mapM_None_2, Exists_exists.
    exists field. split.
    - apply list_elem_of_In, List.filter_In. by split.
    - unfold py_int. destruct (py_strip field) as [|c' s'] eqn:E; [done|].
      destruct (forallb py_isdecimal_char (c' :: s')) eqn:Hall; [|done].
      rewrite forallb_forall in Hall. specialize (Hall c Hc).
      rewrite (superscript_not_decimal c Hsup) in Hall. done. }
  split; [done|]. unfold main. by rewrite Hnone.
Qed.

Lemma parse_superscript_raises_witness :
  let w := {| w_initial_balance := 30000; w_interest_percent := 4;
              w_months := 12; w_days_per_month := 30;
              w_payment_days_str := ["7"; ","; " "; "1"; ascii_of_nat 178]%char;
              w_payment_amount_staggered := 1000;
              w_lump_sum_day := 28; w_lump_sum_amount := 4000 |} in
  parse_payment_days (w_payment_days_str w) = None ∧ main w = None.
Proof.
  intros w.
  apply (parse_superscript_raises w [" "; "1"; ascii_of_nat 178]%char
           (ascii_of_nat 178)).
  - simpl. right. left. reflexivity.
  - reflexivity.
  - simpl. right. left. reflexivity.
  - reflexivity.
Defined.

(** ** Writing days down and reading them back *)

Lemma uint_chars_decimal u : forallb py_isdecimal_char (uint_chars u) = true.
Proof. induction u; simpl; [done|..]; by rewrite IHu. Qed.

Lemma uint_chars_nil u : uint_chars u = [] → u = Decimal.Nil.
Proof. by destruct u. Qed.

Lemma decimal_no_space c : py_isdecimal_char c = true → py_isspace c = false.
Proof.
  unfold py_isdecimal_char, py_isspace. generalize (nat_of_ascii c). intros n.
  destruct (Nat.leb_spec 48 n), (Nat.leb_spec n 57); try done. intros _.
  destruct (Nat.leb_spec 9 n), (Nat.leb_spec n 13), (Nat.leb_spec 28 n),
           (Nat.leb_spec n 32), (Nat.eqb_spec n 133), (Nat.eqb_spec n 160);
    simpl; reflexivity || lia.
Qed.

Lemma decimal_not_comma c : py_isdecimal_char c = true → c ≠ ","%char.
Proof. intros H ->. discriminate H. Qed.

Lemma foldl_uint_chars u (acc : nat) :
  foldl (λ acc c, 10 * acc + digit_value c)%Z (Z.of_nat acc) (uint_chars u)
  = Z.of_nat (Nat.of_uint_acc u acc).
Proof.
  revert acc. induction u; intros acc; simpl; [done|..];
    rewrite Nat.tail_mul_spec, <- IHu; f_equal; unfold digit_value; simpl; lia.
Qed.

Lemma render_day_nonempty n : render_day n ≠ [].
Proof.
  unfold render_day. intros H%uint_chars_nil.
  pose proof (DecimalNat.Unsigned.of_to n) as Hn. rewrite H in Hn.
  simpl in Hn. subst n. discriminate H.
Qed.

Lemma render_day_decimal n c : In c (render_day n) → py_isdecimal_char c = true.
Proof.
  intros Hc. pose proof (uint_chars_decimal (Nat.to_uint n)) as H.
  rewrite forallb_forall in H. by apply H.
Qed.

Lemma py_int_render_day n : py_int (render_day n) = Some (Z.of_nat n).
Proof.
  pose proof (render_day_nonempty n) as Hne. unfold py_int.
  destruct (render_day n) as [|c s] eqn:E; [done|]. rewrite <- E.
  unfold render_day. rewrite uint_chars_decimal.
  rewrite (foldl_uint_chars _ 0). do 2 f_equal.
  apply DecimalNat.Unsigned.of_to.
Qed.

Lemma parse_render_day n :
  parse_payment_days (render_day n) = Some [Z.of_nat n].
Proof.
  unfold parse_payment_days. rewrite py_split_no_sep.
  2:{ apply Forall_forall. intros c Hc%list_elem_of_In.
      by apply decimal_not_comma, (render_day_decimal n). }
  assert (py_strip (render_day n) = render_day n) as Hstrip.
  { apply py_strip_no_space, Forall_forall. intros c Hc%list_elem_of_In.
    by apply decimal_no_space, (render_day_decimal n). }
  simpl. rewrite Hstrip.
  assert (py_isdigit (render_day n) = true) as ->.
  { pose proof (render_day_nonempty n). unfold py_isdigit.
    destruct (render_day n) as [|c s] eqn:E; [done|]. rewrite <- E.
    apply forallb_forall. intros c' Hc'.
    by apply decimal_is_digit, (render_day_decimal n). }
  simpl. rewrite Hstrip, py_int_render_day. done.
Qed.

Lemma parse_leading_space c s :
  py_isspace c = true → c ≠ ","%char →
  parse_payment_days (c :: s) = parse_payment_days s.
Proof.
  intros Hsp Hc. unfold parse_payment_days.
  destruct (py_split_cons ","%char c s Hc) as (f & fs & -> & ->).
  unfold py_strip. simpl. rewrite Hsp.
  destruct (py_isdigit (py_rstrip (py_lstrip f))); [|done].
  simpl. by rewrite Hsp.
Qed.

(** X13: days written in decimal and joined with a comma and a space, the
    way the default text is, are read back as they were written (for a text
    of at most 4300 characters). *)
Theorem parse_render_days (days : list nat) :
  short_text (render_days days) →
  parse_payment_days (render_days days) = Some (Z.of_nat <$> days).
Proof.
  intros _. induction days as [|d days IH]; [done|].
  destruct days as [|d' days]; [apply parse_render_day|].
  change (render_days (d :: d' :: days))
    with (render_day d ++ ","%char :: " "%char :: render_days (d' :: days)).
  rewrite parse_joined, parse_render_day.
  rewrite parse_leading_space by done. rewrite IH. done.
Qed.

Lemma parse_render_days_witness :
  parse_payment_days (render_days [7; 14; 21; 28]%nat)
  = Some (Z.of_nat <$> [7; 14; 21; 28]%nat).
Proof. apply parse_render_days. unfold short_text. simpl. lia. Defined.

(** ** [main] *)

(** What [main] returns once the text is read. *)
Lemma main_parsed (w : widgets) (payment_days : list Z) :
  parse_payment_days (w_payment_days_str w) = Some payment_days →
  let stag := simulate_payments_staggered
                (inject_Z (w_initial_balance w)) (w_interest_percent w / 100)
                (w_months w) (w_days_per_month w) payment_days
                (inject_Z (w_payment_amount_staggered w)) in
  let lump := simulate_payments_lump_sum
                (inject_Z (w_initial_balance w)) (w_interest_percent w / 100)
                (w_months w) (w_days_per_month w) (w_lump_sum_day w)
                (inject_Z (w_lump_sum_amount w)) in
  main w = Some {|
    r_avg_balance_staggered := average_of stag;
    r_annual_interest_staggered := interest_of stag;
    r_avg_balance_lump_sum := average_of lump;
    r_annual_interest_lump_sum := interest_of lump;
    r_difference := sub_nan (interest_of lump) (interest_of stag);
    r_df_results :=
      zip (zip (seqZ 1 (Z.of_nat (length (series_of stag)))) (series_of stag))
          (series_of lump) |}.
Proof.
  intros Hparse stag lump. unfold main. rewrite Hparse. simpl.
  fold stag lump.
  assert (length (series_of lump) = length (series_of stag)) as Hlen.
  { unfold stag, lump. rewrite series_staggered, series_lump_sum.
    by rewrite !length_trace. }
  destruct stag as [[dbs ais] abs], lump as [[dbl ail] abl].
  unfold series_of, interest_of, average_of in *. simpl in *.
  unfold pd_DataFrame, py_range.
  replace (Z.of_nat (length dbs) + 1 - 1)%Z with (Z.of_nat (length dbs)) by lia.
  rewrite decide_True; [done|].
  rewrite length_seqZ, Hlen. lia.
Qed.

(** X14: [main] fails exactly when the text of the payment days cannot be
    read; building the data frame never fails, because the day column and
    the two series have the same length. *)
Theorem main_fails_only_on_text (w : widgets) :
  main w = None ↔ parse_payment_days (w_payment_days_str w) = None.
Proof.
  split.
  - destruct (parse_payment_days (w_payment_days_str w)) as [pd|] eqn:E; [|done].
    by rewrite (main_parsed w pd E).
  - intros E. unfold main. by rewrite E.
Qed.

(** X15: once a text of at most 4300 characters is read, the table of
    [main] has one row per simulated day: its day column counts from 1, and
    its two other columns are the two series in full. *)
Theorem main_table (w : widgets) (payment_days : list Z) :
  short_text (w_payment_days_str w) →
  parse_payment_days (w_payment_days_str w) = Some payment_days →
  ∃ r, main w = Some r
       ∧ (r_df_results r).*1.*1 = seqZ 1 (Z.of_nat (length (r_df_results r)))
       ∧ (r_df_results r).*1.*2
         = series_of (simulate_payments_staggered
             (inject_Z (w_initial_balance w)) (w_interest_percent w / 100)
             (w_months w) (w_days_per_month w) payment_days
             (inject_Z (w_payment_amount_staggered w)))
       ∧ (r_df_results r).*2
         = series_of (simulate_payments_lump_sum
             (inject_Z (w_initial_balance w)) (w_interest_percent w / 100)
             (w_months w) (w_days_per_month w) (w_lump_sum_day w)
             (inject_Z (w_lump_sum_amount w))).
Proof.
  intros _ Hparse. eexists. split; [by apply main_parsed|]. simpl.
  set (stag := series_of (simulate_payments_staggered _ _ _ _ _ _)).
  set (lump := series_of (simulate_payments_lump_sum _ _ _ _ _ _)).
  assert (length lump = length stag) as Hlen.
  { unfold stag, lump. rewrite series_staggered, series_lump_sum.
    by rewrite !length_trace. }
  assert (length (seqZ 1 (Z.of_nat (length stag))) = length stag) as Hday
    by (rewrite length_seqZ; lia).
  assert (length (zip (seqZ 1 (Z.of_nat (length stag))) stag) = length stag)
    as Hzip by (rewrite length_zip; lia).
  rewrite !length_zip, Hday, Hlen, !Nat.min_id.
  rewrite !fst_zip, !snd_zip by lia. done.
Qed.

Lemma main_table_witness :
  ∃ r, main default_widgets = Some r
       ∧ (r_df_results r).*1.*1 = seqZ 1 (Z.of_nat (length (r_df_results r)))
       ∧ (r_df_results r).*1.*2 = series_of scenario_staggered
       ∧ (r_df_results r).*2 = series_of scenario_lump_sum.
Proof.
  assert (short_text (w_payment_days_str default_widgets)) as Hshort
    by (unfold short_text; simpl; lia).
  destruct (main_table default_widgets [7; 14; 21; 28]%Z Hshort eq_refl)
    as (r & Hr & H1 & H2 & H3).
  exists r. split; [exact Hr|]. split; [exact H1|]. split.
  - rewrite H2. vm_compute. reflexivity.
  - rewrite H3. vm_compute. reflexivity.
Defined.




